(** * http-helpers: shallow embedding of the middleware and server packages

    The Go package [middleware] (middleware.go) and the package [server]
    (GracefulShutdown) are modelled here.  Requests are executed in an
    explicit world of shared state: the connection's response, the store of
    [*ResponseWriterWithInfo] objects (pointers), the logger's output, the
    clock, the rate limiters created by [RateLimiter], the process-wide
    [sync.Once] of [Prometheus] and the Prometheus registry. *)

From Stdlib Require Import ZArith QArith Qround Lia Lqa.
From stdpp Require Import base gmap list strings.

Open Scope Z_scope.

(* ------------------------------------------------------------------ *)
(** ** Data model *)

(** An [http.ResponseWriter] interface value as the middlewares see it:
    the connection's own writer (net/http's [*response]); a pointer [p] to
    a [ResponseWriterWithInfo] embedding the writer [u]; or a pointer [d]
    to promhttp's [responseWriterDelegator] wrapping the writer [u].  The
    embedded writer of a wrapper is set when it is allocated and never
    changed, so the pointer value carries it; the other fields live in
    the world's stores. *)
Inductive writer :=
| WConn
| WInfo (p : nat) (u : writer)
| WDeleg (d : nat) (u : writer).

Global Instance writer_eq_dec : EqDecision writer.
Proof. solve_decision. Defined.

(** The fields [statusCode] and [responseError] of a
    [ResponseWriterWithInfo]. *)
Record info := mk_info {
  statusCode : Z;
  responseError : option string
}.

(** The fields [status], [written] and [wroteHeader] of promhttp's
    [responseWriterDelegator] (its [observeWriteHeader] is nil in the
    instrumentation used here). *)
Record delegator := mk_deleg {
  dg_status : Z;
  dg_written : Z;
  dg_wroteHeader : bool
}.

(** What was sent on the connection: the final status line (once written,
    Go's [net/http] ignores further [WriteHeader] calls), the
    [Content-Type] header and the body.  Interim 1xx responses go out
    without changing these. *)
Record conn := mk_conn {
  c_status : option Z;
  c_ctype : option string;
  c_body : string
}.

(** Lines produced by the loggers. *)
Inductive logline :=
| LRequest (lvl : string) (method : string) (status : Z) (err : option string)
| LPanic (v : string)
| LText (s : string).

(** A token bucket of golang.org/x/time/rate.  [lim_interval] is the
    argument of [rate.Every]: [None] is [rate.Inf]; [Some i] (i > 0, in
    nanoseconds) is the rate of one token per [i] ns.  Times are
    nanoseconds since Go's zero [time.Time]. *)
Record limiter := mk_limiter {
  lim_interval : option Z;
  lim_burst : Z;
  lim_tokens : Q;
  lim_last : Z
}.

Record request := mk_request {
  r_method : string;
  r_path : string
}.

(** [w_next] is the next free address, shared by the stores of
    [ResponseWriterWithInfo] objects, limiters and delegators. *)
Record world := mk_world {
  w_conn : conn;
  w_infos : gmap nat info;
  w_next : nat;
  w_logs : list logline;
  w_now : Z;
  w_lims : gmap nat limiter;
  w_once : bool;
  w_registry : list string;
  w_metrics : list (string * string * Z);
  w_delegs : gmap nat delegator
}.

(** A Go panic unwinding out of a handler. *)
Inductive outcome :=
| Ok
| Panic (v : string).

Definition handler := writer -> request -> world -> outcome * world.
Definition Middleware := handler -> handler.

(** Setters. *)
Definition set_conn (c : conn) (st : world) : world :=
  mk_world c st.(w_infos) st.(w_next) st.(w_logs) st.(w_now) st.(w_lims)
    st.(w_once) st.(w_registry) st.(w_metrics) st.(w_delegs).
Definition set_infos (m : gmap nat info) (n : nat) (st : world) : world :=
  mk_world st.(w_conn) m n st.(w_logs) st.(w_now) st.(w_lims)
    st.(w_once) st.(w_registry) st.(w_metrics) st.(w_delegs).
Definition add_log (l : logline) (st : world) : world :=
  mk_world st.(w_conn) st.(w_infos) st.(w_next) (st.(w_logs) ++ [l])
    st.(w_now) st.(w_lims) st.(w_once) st.(w_registry) st.(w_metrics) st.(w_delegs).
Definition set_lims (m : gmap nat limiter) (n : nat) (st : world) : world :=
  mk_world st.(w_conn) st.(w_infos) n st.(w_logs) st.(w_now) m
    st.(w_once) st.(w_registry) st.(w_metrics) st.(w_delegs).
Definition set_prom (once : bool) (reg : list string) (st : world) : world :=
  mk_world st.(w_conn) st.(w_infos) st.(w_next) st.(w_logs) st.(w_now)
    st.(w_lims) once reg st.(w_metrics) st.(w_delegs).
Definition add_metric (m : string * string * Z) (st : world) : world :=
  mk_world st.(w_conn) st.(w_infos) st.(w_next) st.(w_logs) st.(w_now)
    st.(w_lims) st.(w_once) st.(w_registry) (st.(w_metrics) ++ [m]) st.(w_delegs).
Definition set_delegs (m : gmap nat delegator) (n : nat) (st : world) : world :=
  mk_world st.(w_conn) st.(w_infos) n st.(w_logs) st.(w_now) st.(w_lims)
    st.(w_once) st.(w_registry) st.(w_metrics) m.

(* ------------------------------------------------------------------ *)
(** ** The connection writer (net/http) *)

(** [checkWriteHeaderCode]: codes outside 100-999 make [WriteHeader]
    panic. *)
Definition checkWriteHeaderCode (code : Z) : bool := (100 <=? code) && (code <=? 999).

(** [response.WriteHeader]: once a final status is written, further calls
    are "superfluous" and ignored.  Otherwise a code failing
    [checkWriteHeaderCode] panics ([None]); a 1xx code other than 101 is
    sent as an interim response, the final status still to come; any
    other code becomes the status. *)
Definition conn_WriteHeader (code : Z) (c : conn) : option conn :=
  match c.(c_status) with
  | Some _ => Some c
  | None =>
      if negb (checkWriteHeaderCode code) then None
      else if (code <=? 199) && negb (code =? 101) then Some c
      else Some (mk_conn (Some code) c.(c_ctype) c.(c_body))
  end.

(** [response.Write]: an implicit [WriteHeader(http.StatusOK)] when no
    final status was written yet. *)
Definition conn_Write (s : string) (c : conn) : conn :=
  mk_conn (Some (default 200 c.(c_status))) c.(c_ctype) (c.(c_body) +:+ s).

(** [response.Flush]: the same implicit [WriteHeader(http.StatusOK)],
    then the buffered response goes out. *)
Definition conn_Flush (c : conn) : conn :=
  mk_conn (Some (default 200 c.(c_status))) c.(c_ctype) c.(c_body).

(** Header().Set("Content-Type", v): only effective before the status line. *)
Definition conn_SetContentType (v : string) (c : conn) : conn :=
  match c.(c_status) with
  | Some _ => c
  | None => mk_conn None (Some v) c.(c_body)
  end.

(* ------------------------------------------------------------------ *)
(** ** ResponseWriterWithInfo and promhttp's delegator *)

(** [NewResponseWriter]: the type assertion [r.( *ResponseWriterWithInfo)]
    returns the pointer itself; any other writer (the connection's, or a
    promhttp delegator) is wrapped in a new object with
    [statusCode: http.StatusOK].  The pointer is returned as its address
    and its embedded writer. *)
Definition NewResponseWriter (r : writer) (st : world) : (nat * writer) * world :=
  match r with
  | WInfo p u => ((p, u), st)
  | _ =>
      let p := st.(w_next) in
      ((p, r), set_infos (<[p := mk_info 200 None]> st.(w_infos)) (S p) st)
  end.

Definition update_info (p : nat) (f : info -> info) (st : world) : world :=
  match st.(w_infos) !! p with
  | Some i => set_infos (<[p := f i]> st.(w_infos)) st.(w_next) st
  | None => st
  end.

Definition update_deleg (d : nat) (f : delegator -> delegator) (st : world) : world :=
  match st.(w_delegs) !! d with
  | Some g => set_delegs (<[d := f g]> st.(w_delegs)) st.(w_next) st
  | None => st
  end.

(** Method calls through the [http.ResponseWriter] interface.  On a
    [*ResponseWriterWithInfo], [WriteHeader] is the overriding method: it
    records the code, then forwards to the embedded writer; [Write] and
    [Header] are promoted from the embedded writer.  The delegator's
    [WriteHeader] records the code and [wroteHeader], then forwards.  A
    panic of net/http's [WriteHeader] comes after the wrappers have
    recorded the code. *)
Fixpoint WriteHeader (w : writer) (code : Z) (st : world) : outcome * world :=
  match w with
  | WConn =>
      match conn_WriteHeader code st.(w_conn) with
      | Some c => (Ok, set_conn c st)
      | None => (Panic "invalid WriteHeader code", st)
      end
  | WInfo p u => WriteHeader u code (update_info p (fun i => mk_info code i.(responseError)) st)
  | WDeleg d u =>
      WriteHeader u code (update_deleg d (fun g => mk_deleg code g.(dg_written) true) st)
  end.

(** [if !r.wroteHeader { r.WriteHeader(http.StatusOK) }] at the start of
    the delegator's [Write] and [Flush]; the code 200 passes
    [checkWriteHeaderCode], so this call returns normally (lemma
    [WriteHeader_valid]). *)
Definition delegator_header (d : nat) (u : writer) (st : world) : world :=
  match st.(w_delegs) !! d with
  | Some g => if g.(dg_wroteHeader) then st else snd (WriteHeader (WDeleg d u) 200 st)
  | None => st
  end.

(** [Write]: promoted on a [*ResponseWriterWithInfo]; on the delegator,
    the implicit header, the forwarded call, and [r.written += n] where
    [n] is the length the connection accepted (all of it). *)
Fixpoint Write (w : writer) (s : string) (st : world) : world :=
  match w with
  | WConn => set_conn (conn_Write s st.(w_conn)) st
  | WInfo _ u => Write u s st
  | WDeleg d u =>
      let st := delegator_header d u st in
      let st := Write u s st in
      update_deleg d (fun g => mk_deleg g.(dg_status)
                                 (g.(dg_written) + Z.of_nat (String.length s))
                                 g.(dg_wroteHeader)) st
  end.

(** [w.Header().Set("Content-Type", v)]: every writer here hands out the
    connection's header map. *)
Definition SetContentType (w : writer) (v : string) (st : world) : world :=
  set_conn (conn_SetContentType v st.(w_conn)) st.

(** Whether the dynamic type of the writer implements [http.Flusher]:
    net/http's [*response] does; [ResponseWriterWithInfo] does not, since
    it embeds the [http.ResponseWriter] interface, whose method set has no
    [Flush]; promhttp's [newDelegator] picks a delegator type with [Flush]
    exactly when the wrapped writer has one.  (The wrapper hides
    [http.Hijacker] and the other optional interfaces the same way; only
    [http.Flusher] is modelled.) *)
Fixpoint has_Flusher (w : writer) : bool :=
  match w with
  | WConn => true
  | WInfo _ _ => false
  | WDeleg _ u => has_Flusher u
  end.

(** [w.(http.Flusher).Flush()]: [None] when the type assertion fails.
    The delegator's [Flush] sends its implicit header, then forwards. *)
Fixpoint Flush (w : writer) (st : world) : option world :=
  match w with
  | WConn => Some (set_conn (conn_Flush st.(w_conn)) st)
  | WInfo _ _ => None
  | WDeleg d u => if has_Flusher u then Flush u (delegator_header d u st) else None
  end.

(** [WriteError] exists on [*ResponseWriterWithInfo] only. *)
Definition WriteError (p : nat) (e : string) (st : world) : world :=
  update_info p (fun i => mk_info i.(statusCode) (Some e)) st.

(* ------------------------------------------------------------------ *)
(** ** AddMiddlewares *)

(** [for _, middleware := range middlewares { h = middleware(h) }]. *)
Definition AddMiddlewares (h : handler) (middlewares : list Middleware) : handler :=
  fold_left (fun h middleware => middleware h) middlewares h.

(** Terminal handlers written as scripts of calls on the response writer
    they receive, as user handlers do: [CWriteError e] is
    [w.( *ResponseWriterWithInfo).WriteError(e)] and [CFlush] is
    [w.(http.Flusher).Flush()], both type assertions that panic when the
    writer is not of that type. *)
Inductive cmd :=
| CWriteHeader (code : Z)
| CWrite (s : string)
| CWriteError (e : string)
| CFlush
| CLog (s : string)
| CPanic (v : string).

Fixpoint run_script (cs : list cmd) (w : writer) (st : world) : outcome * world :=
  match cs with
  | [] => (Ok, st)
  | CWriteHeader c :: cs =>
      match WriteHeader w c st with
      | (Ok, st) => run_script cs w st
      | res => res
      end
  | CWrite s :: cs => run_script cs w (Write w s st)
  | CWriteError e :: cs =>
      match w with
      | WInfo p _ => run_script cs w (WriteError p e st)
      | _ => (Panic "interface conversion", st)
      end
  | CFlush :: cs =>
      match Flush w st with
      | Some st => run_script cs w st
      | None => (Panic "interface conversion", st)
      end
  | CLog s :: cs => run_script cs w (add_log (LText s) st)
  | CPanic v :: _ => (Panic v, st)
  end.

Definition script_handler (cs : list cmd) : handler :=
  fun w _ st => run_script cs w st.

(** The middleware of [Test_Order]: log before and after delegating. *)
Definition createMiddleware (logString : string) : Middleware :=
  fun h w r st =>
    let st := add_log (LText logString) st in
    match h w r st with
    | (Ok, st) => (Ok, add_log (LText logString) st)
    | res => res
    end.

(* ------------------------------------------------------------------ *)
(** ** Logger and PanicRecovery *)

(** [Logger(logger)]: wrap the writer, serve, then log the recorded status
    (at error level with the error when one was stored with [WriteError]).
    The [elapsed] field (wall-clock, floating point) is not modelled.  A
    panic of [h] unwinds through the stage: nothing is logged. *)
Definition Logger : Middleware :=
  fun h w r st =>
    let '((rw, u), st) := NewResponseWriter w st in
    match h (WInfo rw u) r st with
    | (Ok, st) =>
        match st.(w_infos) !! rw with
        | Some i =>
            match i.(responseError) with
            | Some e => (Ok, add_log (LRequest "error" r.(r_method) i.(statusCode) (Some e)) st)
            | None => (Ok, add_log (LRequest "info" r.(r_method) i.(statusCode) None) st)
            end
        | None => (Panic "nil pointer dereference", st)
        end
    | res => res
    end.

(** The status the [Logger] stage reported in a log, if any. *)
Definition logged_status (l : logline) : option Z :=
  match l with
  | LRequest _ _ s _ => Some s
  | _ => None
  end.

(** [PanicRecovery(logger)]: the deferred [recover()] stops the unwinding
    and logs [logger.Errorf("panic recovered: %s", r)] ([LPanic r]). *)
Definition PanicRecovery : Middleware :=
  fun h w r st =>
    match h w r st with
    | (Panic v, st) => (Ok, add_log (LPanic v) st)
    | (Ok, st) => (Ok, st)
    end.

(* ------------------------------------------------------------------ *)
(** ** golang.org/x/time/rate (the parts [RateLimiter] uses) *)

(** Rates and token counts are float64 in Go; they are exact rationals
    here, so this is the limiter without rounding: where Go's float64
    arithmetic rounds, at the boundary of a refill, the two can differ. *)
Definition maxDuration : Z := 2 ^ 63 - 1.
Definition minDuration : Z := - 2 ^ 63.

(** [t.Sub(u)], saturating. *)
Definition time_Sub (t u : Z) : Z := Z.max minDuration (Z.min maxDuration (t - u)).

(** [rate.Every(interval)]. *)
Definition Every (interval : Z) : option Z :=
  if interval <=? 0 then None else Some interval.

(** [limit.tokensFromDuration(d)] for the rate of one token per [iv] ns. *)
Definition tokensFromDuration (iv d : Z) : Q := (inject_Z d / inject_Z iv)%Q.

(** [limit.durationFromTokens(tokens)], for [tokens > 0]: the conversion
    [time.Duration(float)] truncates; beyond [MaxInt64] it is
    [InfDuration]. *)
Definition durationFromTokens (iv : Z) (tokens : Q) : Z :=
  let d := (tokens * inject_Z iv)%Q in
  if Qlt_le_dec (inject_Z maxDuration) d then maxDuration else Qfloor d.

(** [rate.NewLimiter(r, b)]: zero tokens, zero [last] time. *)
Definition NewLimiter (r : option Z) (b : Z) : limiter := mk_limiter r b 0%Q 0.

(** [lim.advance(t)]. With [rate.Inf] the accrued tokens are infinite and
    capped at the burst. *)
Definition advance (lim : limiter) (t : Z) : Z * Q :=
  let last := if t <? lim.(lim_last) then t else lim.(lim_last) in
  let elapsed := time_Sub t last in
  match lim.(lim_interval) with
  | None => (t, inject_Z lim.(lim_burst))
  | Some iv =>
      let tokens := (lim.(lim_tokens) + tokensFromDuration iv elapsed)%Q in
      if Qlt_le_dec (inject_Z lim.(lim_burst)) tokens
      then (t, inject_Z lim.(lim_burst)) else (t, tokens)
  end.

(** [lim.SetBurstAt(t, newBurst)] ([SetBurst] is [SetBurstAt(time.Now(), _)]). *)
Definition SetBurstAt (t newBurst : Z) (lim : limiter) : limiter :=
  let '(t, tokens) := advance lim t in
  mk_limiter lim.(lim_interval) newBurst tokens t.

(** [lim.Allow()] = [reserveN(time.Now(), 1, 0).ok]; the state is only
    updated when the reservation is granted. *)
Definition Allow (now : Z) (lim : limiter) : bool * limiter :=
  match lim.(lim_interval) with
  | None => (true, lim)
  | Some iv =>
      let '(t, tokens) := advance lim now in
      let tokens := (tokens - 1)%Q in
      let waitDuration :=
        if Qlt_le_dec tokens 0 then durationFromTokens iv (- tokens)%Q else 0 in
      let ok := (1 <=? lim.(lim_burst)) && (waitDuration <=? 0) in
      if ok then (true, mk_limiter (Some iv) lim.(lim_burst) tokens t)
      else (false, lim)
  end.

(* ------------------------------------------------------------------ *)
(** ** RateLimiter *)

Definition StatusTooManyRequests : Z := 429.

(** [http.Error(w, error, code)]. *)
Definition http_Error (w : writer) (error : string) (code : Z) (st : world) : outcome * world :=
  let st := SetContentType w "text/plain; charset=utf-8" st in
  match WriteHeader w code st with
  | (Ok, st) => (Ok, Write w (error +:+ "
") st)
  | res => res
  end.

(** The middleware closing over the limiter stored at [lid]. *)
Definition RateLimiter_mw (lid : nat) : Middleware :=
  fun h w r st =>
    match st.(w_lims) !! lid with
    | None => (Panic "nil pointer dereference", st)
    | Some lim =>
        let '(ok, lim) := Allow st.(w_now) lim in
        let st := set_lims (<[lid := lim]> st.(w_lims)) st.(w_next) st in
        if negb ok then http_Error w "Too Many Requests" StatusTooManyRequests st
        else h w r st
    end.

(** [RateLimiter(interval, limit, burst)]: allocates the limiter
    [rate.NewLimiter(rate.Every(interval), limit)], calls
    [limiter.SetBurst(burst)] at the current time, and returns the
    middleware. *)
Definition RateLimiter (interval limit burst : Z) (st : world) : Middleware * world :=
  let limiter := NewLimiter (Every interval) limit in
  let limiter := SetBurstAt st.(w_now) burst limiter in
  let lid := st.(w_next) in
  (RateLimiter_mw lid, set_lims (<[lid := limiter]> st.(w_lims)) (S lid) st).

(* ------------------------------------------------------------------ *)
(** ** Prometheus *)

(** A collector variable of [Prometheus()]: [None] is Go's nil, [Some n]
    the collector registered under the name [n]. *)
Definition collector := option string.

(** [promauto.NewX]: [MustRegister] with the default registry, which panics
    on a duplicate name. *)
Definition register (name : string) (st : world) : option world :=
  if decide (name ∈ st.(w_registry)) then None
  else Some (set_prom st.(w_once) (st.(w_registry) ++ [name]) st).

(** promhttp's [newDelegator(w, nil)]: a new [responseWriterDelegator]
    wrapping [w], with [status] 0, nothing written and [wroteHeader]
    false. *)
Definition newDelegator (st : world) : nat * world :=
  let d := st.(w_next) in
  (d, set_delegs (<[d := mk_deleg 0 0 false]> st.(w_delegs)) (S d) st).

(** [d.Written()]. *)
Definition Written (d : nat) (st : world) : Z :=
  match st.(w_delegs) !! d with
  | Some g => g.(dg_written)
  | None => 0
  end.

(** [promhttp.InstrumentHandlerResponseSize(obs, next)]: inspecting the
    labels of [obs] dereferences it, so a nil vector panics when the
    instrumented handler is built.  The handler serves [next] on a new
    delegator wrapping its writer, then observes the bytes written through
    the delegator (no observation when [next] panics). *)
Definition InstrumentHandlerResponseSize (obs : collector) (next : handler) : option handler :=
  match obs with
  | None => None
  | Some n => Some (fun w r st =>
      let '(d, st) := newDelegator st in
      match next (WDeleg d w) r st with
      | (Ok, st) => (Ok, add_metric (n, "", Written d st) st)
      | res => res
      end)
  end.

(** [promhttp.InstrumentHandlerInFlight(g, next)]: [g.Inc()], deferred
    [g.Dec()]. *)
Definition InstrumentHandlerInFlight (g : collector) (next : handler) : handler :=
  fun w r st =>
    match g with
    | None => (Panic "nil pointer dereference", st)
    | Some n =>
        let st := add_metric (n, "", 1) st in
        let '(o, st) := next w r st in
        (o, add_metric (n, "", -1) st)
    end.

(** [duration.MustCurryWith(prometheus.Labels{"method": m})]. *)
Definition MustCurryWith (v : collector) (m : string) : option (string * string) :=
  match v with
  | None => None
  | Some n => Some (n, m)
  end.

(** [promhttp.InstrumentHandlerDuration(obs, next)]; latencies are not
    modelled (observed as 0).  The vector passed here has its only label,
    [method], curried, so the instrumentation has no [code] label and
    serves [next] on the writer it gets, without a delegator. *)
Definition InstrumentHandlerDuration (obs : string * string) (next : handler) : handler :=
  fun w r st =>
    match next w r st with
    | (Ok, st) => (Ok, add_metric (obs.1, obs.2, 0) st)
    | res => res
    end.

Record prom_collectors := mk_prom {
  inFlightGauge : collector;
  counter : collector;
  duration : collector;
  responseSize : collector
}.

(** The function passed to [metricsRegisterOnce.Do]. *)
Definition register_all (st : world) : option (prom_collectors * world) :=
  match register "in_flight_requests" st with
  | None => None
  | Some st =>
  match register "http_requests_total" st with
  | None => None
  | Some st =>
  match register "request_duration_seconds" st with
  | None => None
  | Some st =>
  match register "response_size_bytes" st with
  | None => None
  | Some st =>
      Some (mk_prom (Some "in_flight_requests") (Some "http_requests_total")
              (Some "request_duration_seconds") (Some "response_size_bytes"), st)
  end end end end.

(** The middleware returned by [Prometheus()], closing over the four
    collector variables. *)
Definition Prometheus_mw (c : prom_collectors) : Middleware :=
  fun h w r st =>
    let handler := h in
    match InstrumentHandlerResponseSize c.(responseSize) handler with
    | None => (Panic "nil pointer dereference", st)
    | Some handler =>
    let handler := InstrumentHandlerInFlight c.(inFlightGauge) handler in
    match MustCurryWith c.(duration) r.(r_method) with
    | None => (Panic "nil pointer dereference", st)
    | Some d =>
    let handler := InstrumentHandlerDuration d handler in
    let '((rw, u), st) := NewResponseWriter w st in
    match handler (WInfo rw u) r st with
    | (Ok, st) =>
        match c.(counter), st.(w_infos) !! rw with
        | Some n, Some i => (Ok, add_metric (n, r.(r_method), i.(statusCode)) st)
        | _, _ => (Panic "nil pointer dereference", st)
        end
    | res => res
    end end end.

(** [Prometheus()]: the collector variables are local and start nil;
    [metricsRegisterOnce.Do] runs the registration the first time only
    (marking the [Once] done first, as [sync.Once] does even when the
    function panics).  [None] is a panic of the constructor. *)
Definition Prometheus (st : world) : option (Middleware * world) :=
  if st.(w_once) then Some (Prometheus_mw (mk_prom None None None None), st)
  else
    match register_all (set_prom true st.(w_registry) st) with
    | None => None
    | Some (c, st) => Some (Prometheus_mw c, st)
    end.

(* ------------------------------------------------------------------ *)
(** ** GracefulShutdown *)

Module Server.

(** Observable actions of the background goroutine. *)
Inductive action :=
| AInfo                          (* logger.Infof("shutting down server, ...") *)
| ACallShutdown (waitTime : Z)   (* server.Shutdown(ctx), ctx with timeout waitTime *)
| AReturned (err : option string) (* server.Shutdown returned err *)
| AError (err : string)          (* logger.Errorf("could not shut down ...", err) *)
| AClose.                        (* close(idleConnsClosed) *)

(** Program points of the goroutine.  [PStart]: before the two
    [signal.Notify] calls; [PWait]: blocked on [<-gracefulStop];
    [PAwait]: inside [server.Shutdown(ctx)]; [PCheck err]: Shutdown
    returned [err]; [PClose]: about to close the channel; [PDone]: the
    goroutine returned.  [PKilled]: the process was terminated by a signal
    it had not subscribed to; [PCrashed]: a panic in the goroutine (nil
    interface call, close of a closed channel) took the process down. *)
Inductive pc :=
| PStart | PWait | PLogInfo | PShutdown | PAwait
| PCheck (err : option string) | PClose | PDone | PKilled | PCrashed.

(** [buf]: the content of [gracefulStop] (capacity 1); [received]: the
    number of values taken from it; [closed]: [idleConnsClosed] is closed. *)
Record state := mk_state {
  s_pc : pc;
  s_buf : nat;
  s_received : nat;
  s_closed : bool;
  s_trace : list action
}.

(** Scheduling events: the goroutine runs one statement, the OS delivers a
    SIGINT or SIGTERM, or the server's [Shutdown] returns. *)
Inductive event :=
| EGo
| ESignal
| EReturn (err : option string).

Definition init : state := mk_state PStart 0%nat 0%nat false [].

Definition goto (p : pc) (s : state) : state :=
  mk_state p s.(s_buf) s.(s_received) s.(s_closed) s.(s_trace).
Definition emit (a : action) (p : pc) (s : state) : state :=
  mk_state p s.(s_buf) s.(s_received) s.(s_closed) (s.(s_trace) ++ [a]).

(** A method call on the [ShutdownLogger] interface value: on a nil
    interface it panics. *)
Definition call_logger (logger : bool) (a : action) (p : pc) (s : state) : state :=
  if logger then emit a p s else goto PCrashed s.

(** [close(idleConnsClosed)]. *)
Definition close_chan (s : state) : state :=
  if s.(s_closed) then goto PCrashed s
  else mk_state PDone s.(s_buf) s.(s_received) true (s.(s_trace) ++ [AClose]).

(** One event of the execution of [GracefulShutdown(server, waitTime,
    logger)]; [logger] says whether the logger is non-nil. *)
Definition step (logger : bool) (waitTime : Z) (e : event) (s : state) : state :=
  match e, s.(s_pc) with
  | _, PKilled | _, PCrashed => s
  | ESignal, PStart => goto PKilled s
  | ESignal, _ =>
      (* signal.Notify never blocks: a full buffer drops the signal *)
      if (s.(s_buf) =? 0)%nat then mk_state s.(s_pc) 1%nat s.(s_received) s.(s_closed) s.(s_trace)
      else s
  | EGo, PStart => goto PWait s
  | EGo, PWait =>
      if (s.(s_buf) =? 0)%nat then s
      else mk_state PLogInfo 0%nat (S s.(s_received)) s.(s_closed) s.(s_trace)
  | EGo, PLogInfo =>
      if logger then call_logger logger AInfo PShutdown s else goto PShutdown s
  | EGo, PShutdown => emit (ACallShutdown waitTime) PAwait s
  | EReturn err, PAwait => emit (AReturned err) (PCheck err) s
  | EGo, PCheck err =>
      match err with
      | Some e =>
          if logger then call_logger logger (AError e) PClose s else goto PClose s
      | None => goto PClose s
      end
  | EGo, PClose => close_chan s
  | _, _ => s
  end.

Definition run_from (logger : bool) (waitTime : Z) (s : state) (sched : list event) : state :=
  fold_left (fun s e => step logger waitTime e s) sched s.

Definition run (logger : bool) (waitTime : Z) (sched : list event) : state :=
  run_from logger waitTime init sched.

(** Counting and erasing actions. *)
Definition is_call (a : action) : bool :=
  match a with ACallShutdown _ => true | _ => false end.
Definition is_close (a : action) : bool :=
  match a with AClose => true | _ => false end.
Definition is_log (a : action) : bool :=
  match a with AInfo | AError _ => true | _ => false end.

Definition count_calls (t : list action) : nat := length (List.filter is_call t).
Definition count_closes (t : list action) : nat := length (List.filter is_close t).
Definition erase_logs (t : list action) : list action := List.filter (fun a => negb (is_log a)) t.

Global Instance action_eq_dec : EqDecision action.
Proof. solve_decision. Defined.

(** The actions of one complete run of the goroutine, when [Shutdown]
    returns [err]. *)
Definition info_part (logger : bool) : list action :=
  if logger then [AInfo] else [].
Definition err_part (logger : bool) (err : option string) : list action :=
  match err with
  | Some e => if logger then [AError e] else []
  | None => []
  end.
Definition canon (logger : bool) (waitTime : Z) (err : option string) : list action :=
  info_part logger ++ [ACallShutdown waitTime; AReturned err] ++ err_part logger err ++ [AClose].

(** The invariant of the reachable states: the trace so far, the number of
    values received and the channel's state, by program point. *)
Definition inv (logger : bool) (waitTime : Z) (s : state) : Prop :=
  (s.(s_buf) <= 1)%nat /\
  match s.(s_pc) with
  | PStart | PWait | PKilled =>
      s.(s_trace) = [] /\ s.(s_received) = 0%nat /\ s.(s_closed) = false
  | PLogInfo =>
      s.(s_trace) = [] /\ s.(s_received) = 1%nat /\ s.(s_closed) = false
  | PShutdown =>
      s.(s_trace) = info_part logger /\ s.(s_received) = 1%nat /\ s.(s_closed) = false
  | PAwait =>
      s.(s_trace) = info_part logger ++ [ACallShutdown waitTime] /\
      s.(s_received) = 1%nat /\ s.(s_closed) = false
  | PCheck err =>
      s.(s_trace) = info_part logger ++ [ACallShutdown waitTime; AReturned err] /\
      s.(s_received) = 1%nat /\ s.(s_closed) = false
  | PClose =>
      (exists err, s.(s_trace) = info_part logger ++ [ACallShutdown waitTime; AReturned err]
                                 ++ err_part logger err) /\
      s.(s_received) = 1%nat /\ s.(s_closed) = false
  | PDone =>
      (exists err, s.(s_trace) = canon logger waitTime err) /\
      s.(s_received) = 1%nat /\ s.(s_closed) = true
  | PCrashed => False
  end.

(** Runs of the goroutine with a nil and with a non-nil logger, step by
    step: same control, same channel, same trace up to the log lines. *)
Definition sim (s0 s1 : state) : Prop :=
  s_pc s0 = s_pc s1 /\ s_buf s0 = s_buf s1 /\ s_received s0 = s_received s1 /\
  s_closed s0 = s_closed s1 /\ s_trace s0 = erase_logs (s_trace s1).

End Server.

(* ------------------------------------------------------------------ *)
(** ** Requests from a fresh connection *)

Definition empty_conn : conn := mk_conn None None "".

Definition world0 (now : Z) : world :=
  mk_world empty_conn ∅ 0%nat [] now ∅ false [] [] ∅.

Definition set_now (t : Z) (st : world) : world :=
  mk_world st.(w_conn) st.(w_infos) st.(w_next) st.(w_logs) t st.(w_lims)
    st.(w_once) st.(w_registry) st.(w_metrics) st.(w_delegs).

(** The server runs the handler on a new connection at time [t]; the
    status that goes out is the written one, or 200 when the handler
    wrote none. *)
Definition serve (h : handler) (r : request) (t : Z) (st : world) : outcome * Z * world :=
  let st := set_now t (set_conn empty_conn st) in
  let '(o, st) := h WConn r st in
  (o, default 200 st.(w_conn).(c_status), st).

Definition req0 : request := mk_request "GET" "/".

(** Logs appended in one go. *)
Definition add_logs (l : list logline) (st : world) : world :=
  mk_world st.(w_conn) st.(w_infos) st.(w_next) (st.(w_logs) ++ l)
    st.(w_now) st.(w_lims) st.(w_once) st.(w_registry) st.(w_metrics) st.(w_delegs).


(** Requests served one after the other on new connections, at the given
    times; the statuses sent. *)
Fixpoint serve_all (h : handler) (ts : list Z) (st : world) : list Z :=
  match ts with
  | [] => []
  | t :: ts => let '(_, code, st) := serve h req0 t st in code :: serve_all h ts st
  end.

(** A wall-clock time (ns since Go's zero time), in 2025. *)
Definition T0 : Z := 63900000000 * 10 ^ 9.

(** [AddMiddlewares(handler, RateLimiter(interval, limit, burst))] built at
    [T0], then requests at the times [ts]. *)
Definition rl_run (interval limit burst : Z) (ts : list Z) : list Z :=
  let '(m, st) := RateLimiter interval limit burst (world0 T0) in
  serve_all (AddMiddlewares (script_handler []) [m]) ts st.

(** A world holding one limiter with no token left at [T0]. *)
Definition rl_empty : limiter := mk_limiter (Some 10000000) 1 0%Q T0.
Definition rl_world : world := set_lims {[0%nat := rl_empty]} 1%nat (world0 T0).

(** [Prometheus()] called [n] times. *)
Fixpoint Prometheus_n (n : nat) (st : world) : option world :=
  match n with
  | O => Some st
  | S n =>
      match Prometheus st with
      | None => None
      | Some (_, st) => Prometheus_n n st
      end
  end.

Definition prom_names : list string :=
  ["in_flight_requests"; "http_requests_total"; "request_duration_seconds";
   "response_size_bytes"].

(** Two middlewares from two calls of [Prometheus()], each serving one
    request: the registry, and the outcomes of the two requests. *)
Definition prometheus_twice (st : world) : option (list string * outcome * outcome) :=
  match Prometheus st with
  | None => None
  | Some (m1, st1) =>
    match Prometheus st1 with
    | None => None
    | Some (m2, st2) =>
      let '(o1, _, st3) := serve (AddMiddlewares (script_handler []) [m1]) req0 0 st2 in
      let '(o2, _, _) := serve (AddMiddlewares (script_handler []) [m2]) req0 0 st3 in
      Some (st2.(w_registry), o1, o2)
    end
  end.

(** Schedules of the shutdown goroutine: two signals, the goroutine runs
    to [Shutdown], which returns [err], then to the end. *)
Definition two_signals_sched (err : option string) : list Server.event :=
  [Server.EGo; Server.ESignal; Server.ESignal; Server.EGo; Server.EGo; Server.EGo;
   Server.EReturn err; Server.EGo; Server.EGo].
Definition to_shutdown_sched : list Server.event :=
  [Server.EGo; Server.ESignal; Server.EGo; Server.EGo; Server.EGo].





(** Commands whose effect depends on the dynamic type of the writer. *)
Definition asserts_writer_type (c : cmd) : bool :=
  match c with CWriteError _ | CFlush => true | _ => false end.


(** Two worlds with the same logs, limiters and metrics. *)
Definition same_env (st st' : world) : Prop :=
  w_logs st' = w_logs st /\ w_lims st' = w_lims st /\ w_metrics st' = w_metrics st.


(** The collector variables as the first [Prometheus()] call sets them. *)
Definition prom_full : prom_collectors :=
  mk_prom (Some "in_flight_requests") (Some "http_requests_total")
    (Some "request_duration_seconds") (Some "response_size_bytes").

(** The net change of the in-flight gauge over a list of observations. *)
Definition gauge_delta (ms : list (string * string * Z)) : Z :=
  fold_right (fun m acc => if decide (m.1.1 = "in_flight_requests") then m.2 + acc else acc) 0 ms.

(** A limiter of one token per 10 ns with burst 3, full at time 0. *)
Definition lim_ex : limiter := mk_limiter (Some 10) 3 (inject_Z 3) 0.

(* ------------------------------------------------------------------ *)
(** ** Lemmas on the middleware model *)

Lemma AddMiddlewares_snoc (h : handler) (ms : list Middleware) (m : Middleware) :
  AddMiddlewares h (ms ++ [m]) = m (AddMiddlewares h ms).
Proof. unfold AddMiddlewares. by rewrite fold_left_app. Qed.

Lemma add_logs_nil st : add_logs [] st = st.
Proof. destruct st; unfold add_logs; simpl; by rewrite app_nil_r. Qed.

Lemma add_log_logs l L st : add_log l (add_logs L st) = add_logs (L ++ [l]) st.
Proof. destruct st; unfold add_log, add_logs; simpl; by rewrite app_assoc. Qed.

Lemma add_logs_log l L st : add_logs L (add_log l st) = add_logs (l :: L) st.
Proof. destruct st; unfold add_log, add_logs; simpl; by rewrite <- app_assoc. Qed.

(** The [Test_Order] pipeline on any list of stage names. *)
Lemma order_trace (names : list string) (w : writer) (r : request) (st : world) :
  forall L,
  AddMiddlewares (script_handler [CLog "the handler"]) (map createMiddleware names) w r
    (add_logs L st)
  = (Ok, add_logs (L ++ map LText (rev names) ++ [LText "the handler"] ++ map LText names) st).
Proof.
  induction names as [|n names IH] using rev_ind; intros L.
  - simpl. unfold script_handler; simpl. by rewrite add_log_logs.
  - rewrite map_app. simpl. rewrite AddMiddlewares_snoc.
    unfold createMiddleware at 1. rewrite add_log_logs, IH, add_log_logs.
    f_equal. f_equal. rewrite rev_unit, map_app. simpl.
    rewrite <- !app_assoc. simpl. rewrite <- ?app_assoc. reflexivity.
Qed.

(** Writer operations, field by field. *)

Lemma same_env_refl st : same_env st st.
Proof. repeat split. Qed.

Lemma same_env_trans a b c : same_env a b -> same_env b c -> same_env a c.
Proof. intros (H1 & H2 & H3) (H4 & H5 & H6). repeat split; congruence. Qed.

Lemma same_env_set_conn c st : same_env st (set_conn c st).
Proof. repeat split. Qed.

Lemma same_env_update_info p f st : same_env st (update_info p f st).
Proof. unfold update_info. destruct (w_infos st !! p); repeat split. Qed.

Lemma same_env_update_deleg d f st : same_env st (update_deleg d f st).
Proof. unfold update_deleg. destruct (w_delegs st !! d); repeat split. Qed.

Lemma update_info_conn p f st : w_conn (update_info p f st) = w_conn st.
Proof. unfold update_info. by destruct (w_infos st !! p). Qed.

Lemma update_deleg_conn d f st : w_conn (update_deleg d f st) = w_conn st.
Proof. unfold update_deleg. by destruct (w_delegs st !! d). Qed.


Lemma update_deleg_infos d f st : w_infos (update_deleg d f st) = w_infos st.
Proof. unfold update_deleg. by destruct (w_delegs st !! d). Qed.



Lemma update_info_is_Some p q f st :
  is_Some (w_infos st !! q) -> is_Some (w_infos (update_info p f st) !! q).
Proof.
  intros H. unfold update_info. destruct (w_infos st !! p) eqn:Hp; [|exact H]. simpl.
  destruct (decide (p = q)) as [->|Hne].
  - rewrite lookup_insert_eq. eauto.
  - by rewrite lookup_insert_ne.
Qed.

Lemma conn_WriteHeader_valid code c :
  checkWriteHeaderCode code = true -> exists c', conn_WriteHeader code c = Some c'.
Proof.
  intros H. unfold conn_WriteHeader. rewrite H. simpl.
  destruct (c_status c); [eauto|]. destruct (_ && _); eauto.
Qed.

Lemma conn_Write_after_200 s c : conn_Write s (default c (conn_WriteHeader 200 c)) = conn_Write s c.
Proof. by destruct c as [[k|] ct b]. Qed.

Lemma conn_Flush_after_200 c : conn_Flush (default c (conn_WriteHeader 200 c)) = conn_Flush c.
Proof. by destruct c as [[k|] ct b]. Qed.

(** Whatever the chain of wrappers, [WriteHeader] has the outcome and the
    effect on the connection of net/http's [WriteHeader]. *)
Lemma WriteHeader_conn (w : writer) (code : Z) : forall st,
  fst (WriteHeader w code st)
    = match conn_WriteHeader code (w_conn st) with
      | Some _ => Ok
      | None => Panic "invalid WriteHeader code"
      end /\
  w_conn (snd (WriteHeader w code st)) = default (w_conn st) (conn_WriteHeader code (w_conn st)) /\
  same_env st (snd (WriteHeader w code st)).
Proof.
  induction w as [|p u IH|d u IH]; intros st; cbn [WriteHeader].
  - destruct (conn_WriteHeader code (w_conn st)); simpl; (split; [reflexivity|]);
      (split; [reflexivity|]); [apply same_env_set_conn | apply same_env_refl].
  - destruct (IH (update_info p (fun i => mk_info code (responseError i)) st)) as (H1 & H2 & H3).
    rewrite update_info_conn in H1, H2. split; [exact H1|]. split; [exact H2|].
    eapply same_env_trans; [apply same_env_update_info | exact H3].
  - destruct (IH (update_deleg d (fun g => mk_deleg code (dg_written g) true) st)) as (H1 & H2 & H3).
    rewrite update_deleg_conn in H1, H2. split; [exact H1|]. split; [exact H2|].
    eapply same_env_trans; [apply same_env_update_deleg | exact H3].
Qed.

Lemma WriteHeader_valid (w : writer) (code : Z) (st : world) :
  checkWriteHeaderCode code = true -> fst (WriteHeader w code st) = Ok.
Proof.
  intros H. rewrite (proj1 (WriteHeader_conn w code st)).
  by destruct (conn_WriteHeader_valid code (w_conn st) H) as [c' ->].
Qed.

Lemma delegator_header_conn d u st :
  (w_conn (delegator_header d u st) = w_conn st \/
   w_conn (delegator_header d u st) = default (w_conn st) (conn_WriteHeader 200 (w_conn st))) /\
  same_env st (delegator_header d u st).
Proof.
  unfold delegator_header. destruct (w_delegs st !! d) as [g|];
    [|split; [left; reflexivity | apply same_env_refl]].
  destruct (dg_wroteHeader g); [split; [left; reflexivity | apply same_env_refl]|].
  destruct (WriteHeader_conn (WDeleg d u) 200 st) as (_ & H2 & H3). split; [right; exact H2 | exact H3].
Qed.

(** [Write] appends to the body whatever the chain of wrappers. *)
Lemma Write_conn (w : writer) (s : string) : forall st,
  w_conn (Write w s st) = conn_Write s (w_conn st) /\ same_env st (Write w s st).
Proof.
  induction w as [|p u IH|d u IH]; intros st; cbn [Write].
  - split; [reflexivity | apply same_env_set_conn].
  - apply IH.
  - destruct (delegator_header_conn d u st) as [Hc He].
    destruct (IH (delegator_header d u st)) as [H1 H2].
    rewrite update_deleg_conn, H1. split.
    + destruct Hc as [E|E]; rewrite E; [reflexivity | apply conn_Write_after_200].
    + eapply same_env_trans; [exact He|].
      eapply same_env_trans; [exact H2 | apply same_env_update_deleg].
Qed.

Lemma Flush_conn (w : writer) : forall st st',
  Flush w st = Some st' -> w_conn st' = conn_Flush (w_conn st) /\ same_env st st'.
Proof.
  induction w as [|p u IH|d u IH]; intros st st' H; cbn [Flush] in H.
  - injection H as <-. split; [reflexivity | apply same_env_set_conn].
  - discriminate.
  - destruct (has_Flusher u); [|discriminate].
    destruct (delegator_header_conn d u st) as [Hc He].
    destruct (IH _ _ H) as [H1 H2]. rewrite H1. split.
    + destruct Hc as [E|E]; rewrite E; [reflexivity | apply conn_Flush_after_200].
    + eapply same_env_trans; [exact He | exact H2].
Qed.

Lemma Flush_has_Flusher (w : writer) (st : world) :
  has_Flusher w = true -> exists st', Flush w st = Some st'.
Proof.
  revert st. induction w as [|p u IH|d u IH]; intros st H; cbn [Flush has_Flusher] in *.
  - eauto.
  - discriminate.
  - rewrite H. apply IH, H.
Qed.

Lemma WriteHeader_keeps (w : writer) (code : Z) (q : nat) : forall st,
  is_Some (w_infos st !! q) -> is_Some (w_infos (snd (WriteHeader w code st)) !! q).
Proof.
  induction w as [|p u IH|d u IH]; intros st H; cbn [WriteHeader].
  - by destruct (conn_WriteHeader code (w_conn st)).
  - apply IH. by apply update_info_is_Some.
  - apply IH. by rewrite update_deleg_infos.
Qed.

Lemma delegator_header_keeps d u q st :
  is_Some (w_infos st !! q) -> is_Some (w_infos (delegator_header d u st) !! q).
Proof.
  intros H. unfold delegator_header. destruct (w_delegs st !! d) as [g|]; [|exact H].
  destruct (dg_wroteHeader g); [exact H|]. by apply WriteHeader_keeps.
Qed.

Lemma Write_keeps (w : writer) (s : string) (q : nat) : forall st,
  is_Some (w_infos st !! q) -> is_Some (w_infos (Write w s st) !! q).
Proof.
  induction w as [|p u IH|d u IH]; intros st H; cbn [Write].
  - exact H.
  - by apply IH.
  - rewrite update_deleg_infos. apply IH. by apply delegator_header_keeps.
Qed.

Lemma Flush_keeps (w : writer) (q : nat) : forall st st',
  Flush w st = Some st' -> is_Some (w_infos st !! q) -> is_Some (w_infos st' !! q).
Proof.
  induction w as [|p u IH|d u IH]; intros st st' E H; cbn [Flush] in E.
  - by injection E as <-.
  - discriminate.
  - destruct (has_Flusher u); [|discriminate].
    apply (IH _ _ E). by apply delegator_header_keeps.
Qed.

(** A script leaves every [ResponseWriterWithInfo] in the store. *)
Lemma run_script_keeps (q : nat) (cs : list cmd) (w : writer) : forall st,
  is_Some (w_infos st !! q) -> is_Some (w_infos (snd (run_script cs w st)) !! q).
Proof.
  induction cs as [|c cs IH]; intros st H; [exact H|].
  destruct c as [k|s|e| |s|v]; cbn [run_script].
  - pose proof (WriteHeader_keeps w k q st H) as H1.
    destruct (WriteHeader w k st) as [[|v] st1]; [by apply IH | exact H1].
  - by apply IH, Write_keeps.
  - destruct w as [|p u|d u]; [exact H| |exact H].
    apply IH. unfold WriteError. by apply update_info_is_Some.
  - destruct (Flush w st) as [st1|] eqn:E; [|exact H].
    apply IH. exact (Flush_keeps w q st st1 E H).
  - by apply IH.
  - exact H.
Qed.

(** Scripts observe no metric. *)
Lemma run_script_metrics (cs : list cmd) (w : writer) : forall st,
  w_metrics (snd (run_script cs w st)) = w_metrics st.
Proof.
  induction cs as [|c cs IH]; intros st; [reflexivity|].
  destruct c as [k|s|e| |s|v]; cbn [run_script].
  - destruct (WriteHeader_conn w k st) as (_ & _ & _ & _ & Hm).
    destruct (WriteHeader w k st) as [[|v] st1]; simpl in Hm; [by rewrite IH | exact Hm].
  - rewrite IH. apply (Write_conn w s st).
  - destruct w as [|p u|d u]; [reflexivity| |reflexivity].
    rewrite IH. apply same_env_update_info.
  - destruct (Flush w st) as [st1|] eqn:E; [|reflexivity].
    rewrite IH. apply (Flush_conn w st st1 E).
  - by rewrite IH.
  - reflexivity.
Qed.

(** A script that makes no type assertion on its writer gets the outcome
    and sends the response it would send on the connection's own writer,
    whatever chain of wrappers it runs on. *)
Lemma run_script_same_response (cs : list cmd) (w : writer) : forall st st0,
  w_conn st = w_conn st0 ->
  forallb (fun c => negb (asserts_writer_type c)) cs = true ->
  fst (run_script cs w st) = fst (run_script cs WConn st0) /\
  w_conn (snd (run_script cs w st)) = w_conn (snd (run_script cs WConn st0)).
Proof.
  induction cs as [|c cs IH]; intros st st0 Hc Hn; [by split|].
  simpl in Hn. apply andb_prop in Hn as [Hw Hn].
  destruct c as [k|s|e| |s|v]; simpl in Hw; try discriminate; cbn [run_script].
  - destruct (WriteHeader_conn w k st) as (H1 & H2 & _).
    destruct (WriteHeader_conn WConn k st0) as (H1' & H2' & _).
    destruct (WriteHeader w k st) as [o st1]. destruct (WriteHeader WConn k st0) as [o' st1'].
    simpl in H1, H2, H1', H2'. rewrite Hc in H1, H2.
    destruct (conn_WriteHeader k (w_conn st0)) eqn:E; subst o o'.
    + apply IH; [congruence | exact Hn].
    + simpl. split; [reflexivity | congruence].
  - apply IH; [|exact Hn].
    rewrite (proj1 (Write_conn w s st)), (proj1 (Write_conn WConn s st0)), Hc. reflexivity.
  - apply IH; [exact Hc | exact Hn].
  - split; [reflexivity | exact Hc].
Qed.



Lemma Allow_reject_state (t : Z) (lim lim' : limiter) :
  Allow t lim = (false, lim') -> lim' = lim.
Proof.
  unfold Allow. destruct (lim_interval lim) as [iv|]; [|congruence].
  destruct (advance lim t) as [t' tokens].
  destruct (_ && _); congruence.
Qed.

Lemma set_lims_same (st : world) : set_lims (w_lims st) (w_next st) st = st.
Proof. by destruct st. Qed.

(* ------------------------------------------------------------------ *)
(** ** Claims on the middleware package *)

(** Test_Order, on concrete stages A, B, C. *)
Example order_ABC :
  AddMiddlewares (script_handler [CLog "the handler"])
    [createMiddleware "A"; createMiddleware "B"; createMiddleware "C"] WConn req0 (world0 0)
  = (Ok, add_logs (map LText ["C"; "B"; "A"; "the handler"; "A"; "B"; "C"]) (world0 0)).
Proof. reflexivity. Qed.

(** C1: [AddMiddlewares h [s_1; ...; s_n]] is [s_n (... (s_1 h))]; with
    stages that log their name before and after delegating, one request
    logs the names in reverse registration order, then the terminal
    handler once, then the names in registration order. *)
Theorem AddMiddlewares_nesting_order :
  (forall (h : handler) (ms : list Middleware),
     AddMiddlewares h ms = fold_right (fun m acc => m acc) h (rev ms)) /\
  (forall (names : list string) (w : writer) (r : request) (st : world),
     AddMiddlewares (script_handler [CLog "the handler"]) (map createMiddleware names) w r st
     = (Ok, add_logs (map LText (rev names) ++ [LText "the handler"] ++ map LText names) st)).
Proof.
  split.
  - intros h ms. unfold AddMiddlewares. by rewrite fold_left_rev_right.
  - intros names w r st.
    pose proof (order_trace names w r st []) as H.
    rewrite add_logs_nil in H. exact H.
Qed.




(** C10: the wrapper's [WriteHeader] overwrites the recorded status on
    every call, while net/http sends the first code and ignores the later
    ones: for a handler calling [WriteHeader(404)] then [WriteHeader(500)],
    the status sent is 404 and [Logger] reports 500. *)
Lemma Logger_status_two_calls :
  let '(o, st) := Logger (script_handler [CWriteHeader 404; CWriteHeader 500]) WConn req0 (world0 0) in
  o = Ok /\
  option_map logged_status (last st.(w_logs)) = Some (Some 500) /\
  st.(w_conn).(c_status) = Some 404.
Proof. vm_compute. auto. Qed.

(** C6: when the inner handler panics, the handler built by
    [PanicRecovery] returns normally, logs the panic value, and leaves the
    response (connection and recorded writer state) as the panic left it. *)
Theorem PanicRecovery_recovers (h : handler) (w : writer) (r : request)
  (st : world) (v : string) (st' : world) :
  h w r st = (Panic v, st') ->
  exists st'',
    PanicRecovery h w r st = (Ok, st'') /\
    st''.(w_logs) = st'.(w_logs) ++ [LPanic v] /\
    st''.(w_conn) = st'.(w_conn) /\
    st''.(w_infos) = st'.(w_infos).
Proof.
  intros H. unfold PanicRecovery. rewrite H.
  eexists. split; [reflexivity|]. by destruct st'.
Qed.

Lemma PanicRecovery_recovers_witness :
  script_handler [CWrite "partial"; CPanic "boom"] WConn req0 (world0 0)
    = (Panic "boom", Write WConn "partial" (world0 0)) /\
  exists st'',
    PanicRecovery (script_handler [CWrite "partial"; CPanic "boom"]) WConn req0 (world0 0)
      = (Ok, st'') /\
    st''.(w_logs) = (Write WConn "partial" (world0 0)).(w_logs) ++ [LPanic "boom"] /\
    st''.(w_conn) = (Write WConn "partial" (world0 0)).(w_conn) /\
    st''.(w_infos) = (Write WConn "partial" (world0 0)).(w_infos).
Proof.
  split; [reflexivity|].
  apply (PanicRecovery_recovers (script_handler [CWrite "partial"; CPanic "boom"])
           WConn req0 (world0 0) "boom" (Write WConn "partial" (world0 0))).
  reflexivity.
Defined.

(** C5: with its limiter refusing a token, the [RateLimiter] stage answers
    [http.Error(w, "Too Many Requests", 429)] and returns: the result does
    not depend on the next handler [h] (it is never invoked), and logs,
    limiters and metrics are untouched; on a fresh connection the
    response is status 429, a [text/plain] content type and the body
    "Too Many Requests" followed by a newline.  With a token granted it
    invokes [h] on the world with the limiter updated. *)
Theorem RateLimiter_reject_short_circuits (lid : nat) (lim : limiter)
  (h : handler) (w : writer) (r : request) (st : world) :
  st.(w_lims) !! lid = Some lim ->
  (fst (Allow st.(w_now) lim) = false ->
     exists st',
       RateLimiter_mw lid h w r st = (Ok, st') /\
       http_Error w "Too Many Requests" StatusTooManyRequests st = (Ok, st') /\
       st'.(w_logs) = st.(w_logs) /\
       st'.(w_lims) = st.(w_lims) /\
       st'.(w_metrics) = st.(w_metrics) /\
       (st.(w_conn).(c_status) = None ->
        st'.(w_conn) = mk_conn (Some 429) (Some "text/plain; charset=utf-8")
                         (st.(w_conn).(c_body) +:+ "Too Many Requests
"))) /\
  (forall lim', Allow st.(w_now) lim = (true, lim') ->
     RateLimiter_mw lid h w r st
     = h w r (set_lims (<[lid := lim']> st.(w_lims)) st.(w_next) st)).
Proof.
  intros Hl. split.
  - intros Hf. unfold RateLimiter_mw. rewrite Hl.
    destruct (Allow (w_now st) lim) as [ok lim'] eqn:Ha. simpl in Hf. subst ok.
    apply Allow_reject_state in Ha. subst lim'.
    rewrite (insert_id _ _ _ Hl), set_lims_same. cbn [negb].
    unfold http_Error.
    set (st0 := SetContentType w "text/plain; charset=utf-8" st).
    pose proof (WriteHeader_valid w StatusTooManyRequests st0 eq_refl) as Ho.
    destruct (WriteHeader_conn w StatusTooManyRequests st0) as (_ & Hc & He).
    destruct (WriteHeader w StatusTooManyRequests st0) as [o st1]. simpl in Ho, Hc, He. subst o.
    destruct (Write_conn w ("Too Many Requests" +:+ "
") st1) as [Hc2 He2].
    eexists. split; [reflexivity|]. split; [reflexivity|].
    destruct (same_env_trans _ _ _ (same_env_trans _ _ _ (same_env_set_conn _ st) He) He2)
      as (E1 & E2 & E3).
    split; [exact E1|]. split; [exact E2|]. split; [exact E3|].
    intros Hs. rewrite Hc2, Hc. subst st0. unfold SetContentType. cbn [w_conn set_conn].
    destruct (w_conn st) as [cs ct cb]. simpl in Hs. subst cs. reflexivity.
  - intros lim' Ha. unfold RateLimiter_mw. rewrite Hl, Ha. reflexivity.
Qed.

Lemma RateLimiter_reject_short_circuits_witness :
  w_lims rl_world !! 0%nat = Some rl_empty /\
  fst (Allow (w_now rl_world) rl_empty) = false /\
  exists st',
    RateLimiter_mw 0 (script_handler [CLog "inner"]) WConn req0 rl_world = (Ok, st') /\
    http_Error WConn "Too Many Requests" StatusTooManyRequests rl_world = (Ok, st').
Proof.
  assert (Ha : fst (Allow (w_now rl_world) rl_empty) = false) by (vm_compute; reflexivity).
  split; [reflexivity|]. split; [exact Ha|].
  destruct (proj1 (RateLimiter_reject_short_circuits 0 rl_empty (script_handler [CLog "inner"])
                     WConn req0 rl_world eq_refl) Ha) as (st' & H1 & H2 & _).
  exists st'. split; [exact H1 | exact H2].
Defined.

(** C3: [RateLimiter(10ms, 1, 2)]: requests with no delay right after
    construction: the first is admitted, the second and third get 429
    (the claim expects two admissions with a burst of 2); one interval
    later a request is admitted again.  [limit] is passed as the burst of
    [rate.NewLimiter], so the bucket starts with [limit] tokens. *)
Lemma RateLimiter_limit_below_burst :
  rl_run 10000000 1 2 [T0; T0; T0; T0 + 10000000] = [200; 429; 429; 200].
Proof. vm_compute. reflexivity. Qed.

(** With [limit] at least [burst] the same requests see [burst]
    admissions, then 429, then an admission one interval later. *)
Example RateLimiter_limit_at_burst :
  rl_run 10000000 2 2 [T0; T0; T0; T0 + 10000000] = [200; 200; 429; 200] /\
  rl_run 10000000 5 2 [T0; T0; T0; T0 + 10000000] = [200; 200; 429; 200].
Proof. vm_compute. split; reflexivity. Qed.

Lemma Prometheus_n_done (n : nat) :
  forall st, w_once st = true -> Prometheus_n n st = Some st.
Proof.
  induction n as [|n IH]; intros st Ho; simpl; [reflexivity|].
  unfold Prometheus. rewrite Ho. by apply IH.
Qed.

(** C8: however many times [Prometheus()] runs, the four collectors are
    registered once and no duplicate registration panics; but only the
    first call assigns the collector variables: the middleware of a
    second call panics (nil dereference) on every request. *)
Lemma Prometheus_second_instance_panics :
  (forall n, exists st, Prometheus_n (S n) (world0 0) = Some st /\ st.(w_registry) = prom_names) /\
  prometheus_twice (world0 0) = Some (prom_names, Ok, Panic "nil pointer dereference").
Proof.
  split.
  - intros n. simpl.
    rewrite Prometheus_n_done by reflexivity.
    eexists. split; reflexivity.
  - vm_compute. reflexivity.
Qed.

(* ------------------------------------------------------------------ *)
(** ** Lemmas on the shutdown goroutine *)

Module ServerFacts.
Import Server.

Lemma inv_init logger waitTime : inv logger waitTime init.
Proof. unfold inv; simpl. split; [lia | auto]. Qed.

Lemma inv_step logger waitTime e s :
  inv logger waitTime s -> inv logger waitTime (step logger waitTime e s).
Proof.
  destruct s as [p buf rc cl tr]. unfold inv; simpl.
  intros [Hb Hp].
  destruct e as [| |err]; destruct p as [| | | | |err'| | | |]; unfold step; simpl in *;
    unfold call_logger, close_chan, emit, goto; simpl;
    destruct_and?; subst;
    repeat (case_match; simpl; subst);
    try (split; [lia|]).
  all: try discriminate.
  all: try tauto.
  all: repeat match goal with H : ex _ |- _ => destruct H end; subst.
  all: split_and?; try reflexivity.
  all: try (rewrite <- !app_assoc; reflexivity).
  all: try (exists (Some s); reflexivity).
  all: try (exists None; reflexivity).
  all: eexists; unfold canon; rewrite <- !app_assoc; reflexivity.
Qed.

Lemma inv_run_from logger waitTime sched :
  forall s, inv logger waitTime s -> inv logger waitTime (run_from logger waitTime s sched).
Proof.
  induction sched as [|e sched IH]; intros s Hs; simpl; [exact Hs|].
  apply IH, inv_step, Hs.
Qed.

Lemma inv_run logger waitTime sched : inv logger waitTime (run logger waitTime sched).
Proof. apply inv_run_from, inv_init. Qed.

Lemma last_occurrence (x : action) (A l1 l2 : list action) :
  x ∉ A -> A ++ [x] = l1 ++ x :: l2 -> l1 = A.
Proof.
  revert l1. induction A as [|a A IH]; intros l1 Hx Heq; destruct l1 as [|b l1]; simpl in *.
  - reflexivity.
  - injection Heq as -> Heq. destruct l1; discriminate.
  - injection Heq as -> _. exfalso. apply Hx. left.
  - injection Heq as -> Heq. f_equal. apply IH; [| exact Heq].
    intros Hin. apply Hx. by right.
Qed.

Lemma AClose_not_in_prefix logger waitTime err :
  AClose ∉ info_part logger ++ [ACallShutdown waitTime; AReturned err] ++ err_part logger err.
Proof.
  rewrite list_elem_of_In.
  destruct logger, err; simpl; intuition discriminate.
Qed.

Lemma erase_logs_snoc (l : list action) (a : action) :
  erase_logs (l ++ [a]) = erase_logs l ++ (if is_log a then [] else [a]).
Proof. unfold erase_logs. rewrite List.filter_app. simpl. by destruct (is_log a). Qed.

Lemma erase_logs_no_log (l : list action) : Forall (fun a => is_log a = false) (erase_logs l).
Proof.
  induction l as [|a l IH]; simpl; [constructor|].
  unfold erase_logs in *. simpl. destruct (is_log a) eqn:Ha; simpl; [exact IH|].
  by constructor.
Qed.

Lemma sim_step waitTime e s0 s1 :
  sim s0 s1 -> sim (step false waitTime e s0) (step true waitTime e s1).
Proof.
  destruct s0 as [p buf rc cl tr0], s1 as [p1 buf1 rc1 cl1 tr1]; unfold sim; simpl.
  intros (<- & <- & <- & <- & ->).
  destruct e as [| |err]; destruct p as [| | | | |err'| | | |]; unfold step; simpl;
    repeat (case_match; simpl);
    unfold call_logger, emit, goto, close_chan; simpl;
    repeat (case_match; simpl); split_and?; try reflexivity;
    rewrite erase_logs_snoc; simpl; by rewrite ?app_nil_r.
Qed.

Lemma sim_run waitTime sched :
  forall s0 s1, sim s0 s1 ->
  sim (run_from false waitTime s0 sched) (run_from true waitTime s1 sched).
Proof.
  induction sched as [|e sched IH]; intros s0 s1 Hs; simpl; [exact Hs|].
  apply IH, sim_step, Hs.
Qed.

(* ------------------------------------------------------------------ *)
(** ** Claims on GracefulShutdown *)

(** C2: whatever the interleaving of signals (any number of them),
    goroutine steps and the return of [Shutdown], at most one value is
    taken from the signal channel, [Shutdown] is called at most once, the
    Completion Signal is closed at most once and never closed twice (no
    crash); once it is closed, [Shutdown] was called exactly once and the
    channel closed exactly once. *)
Theorem GracefulShutdown_signal_idempotent (logger : bool) (waitTime : Z) (sched : list event) :
  let s := run logger waitTime sched in
  (s_received s <= 1)%nat /\
  (count_calls (s_trace s) <= 1)%nat /\
  (count_closes (s_trace s) <= 1)%nat /\
  s_pc s <> PCrashed /\
  (s_closed s = true ->
   count_calls (s_trace s) = 1%nat /\ count_closes (s_trace s) = 1%nat).
Proof.
  pose proof (inv_run logger waitTime sched) as [_ H]. simpl.
  destruct (run logger waitTime sched) as [p buf rc cl tr]; simpl in *.
  unfold count_calls, count_closes.
  destruct p; destruct_and?;
    repeat match goal with H : ex _ |- _ => destruct H end; subst;
    unfold canon, info_part, err_part; repeat case_match; simpl;
    split_and?; try lia; try discriminate; try tauto.
Qed.

(** C4: the Completion Signal is closed at most once and only after
    [Shutdown] has returned; a closed run's trace is exactly: drain-start
    log (with a logger), the [Shutdown] call, its return [err], the error
    log (with a logger and an error), the close.  From inside [Shutdown],
    whatever it returns, the goroutine closes the channel in its next two
    steps, without crashing. *)
Theorem GracefulShutdown_close_after_shutdown (logger : bool) (waitTime : Z)
  (sched : list event) :
  let s := run logger waitTime sched in
  (forall l1 l2, s_trace s = l1 ++ AClose :: l2 -> exists err, AReturned err ∈ l1) /\
  (count_closes (s_trace s) <= 1)%nat /\
  (s_closed s = true -> exists err, s_trace s = canon logger waitTime err) /\
  (s_pc s = PAwait -> forall err,
     let s' := run_from logger waitTime s [EReturn err; EGo; EGo] in
     s_pc s' = PDone /\ s_closed s' = true /\
     s_trace s' = s_trace s ++ [AReturned err] ++ err_part logger err ++ [AClose]).
Proof.
  pose proof (inv_run logger waitTime sched) as [_ H]. simpl.
  destruct (run logger waitTime sched) as [p buf rc cl tr]; simpl in *.
  split; [|split; [|split]].
  - intros l1 l2 Htr.
    assert (Hin : AClose ∈ tr) by (rewrite Htr; apply list_elem_of_In, in_or_app; right; left; reflexivity).
    destruct p; destruct_and?;
      repeat match goal with H : ex _ |- _ => destruct H end; subst;
      try (rewrite list_elem_of_In in Hin; unfold info_part, err_part in Hin;
           repeat case_match; simpl in Hin; intuition discriminate).
    match goal with x : option string |- _ => exists x end.
    unfold canon in Htr. rewrite app_assoc, app_assoc in Htr.
    apply last_occurrence in Htr; [|rewrite <- !app_assoc; apply AClose_not_in_prefix].
    subst l1. apply list_elem_of_In, in_or_app. left. apply in_or_app. right.
    right. left. reflexivity.
  - unfold count_closes.
    destruct p; destruct_and?;
      repeat match goal with H : ex _ |- _ => destruct H end; subst;
      unfold canon, info_part, err_part; repeat case_match; simpl; try lia; tauto.
  - intros Hc. destruct p; destruct_and?; subst; try discriminate; tauto.
  - intros -> err. destruct_and?. subst. unfold run_from; simpl.
    unfold emit, call_logger, goto, close_chan; simpl.
    destruct err as [e|], logger; simpl; split_and?; try reflexivity;
      rewrite <- !app_assoc; reflexivity.
Qed.

(** C7: with a nil logger no logging call is attempted (the trace has no
    log line and the goroutine never crashes), and the run is the same as
    with a logger, step for step: same program point, signal channel,
    Completion Signal, and the same actions once log lines are removed. *)
Theorem GracefulShutdown_nil_logger (waitTime : Z) (sched : list event) :
  let s0 := run false waitTime sched in
  let s1 := run true waitTime sched in
  Forall (fun a => is_log a = false) (s_trace s0) /\
  s_pc s0 <> PCrashed /\
  s_pc s0 = s_pc s1 /\ s_buf s0 = s_buf s1 /\ s_received s0 = s_received s1 /\
  s_closed s0 = s_closed s1 /\ s_trace s0 = erase_logs (s_trace s1).
Proof.
  assert (Hs : sim (run false waitTime sched) (run true waitTime sched))
    by (apply sim_run; unfold sim; simpl; auto).
  pose proof (inv_run false waitTime sched) as [_ Hi].
  simpl. destruct Hs as (Hp & Hb & Hr & Hc & Ht).
  split; [rewrite Ht; apply erase_logs_no_log|].
  split; [|auto].
  intros Hcr. rewrite Hcr in Hi. exact Hi.
Qed.

Lemma GracefulShutdown_signal_idempotent_witness :
  s_closed (run true 5 (two_signals_sched None)) = true /\
  count_calls (s_trace (run true 5 (two_signals_sched None))) = 1%nat /\
  count_closes (s_trace (run true 5 (two_signals_sched None))) = 1%nat.
Proof.
  pose proof (GracefulShutdown_signal_idempotent true 5 (two_signals_sched None))
    as (_ & _ & _ & _ & H).
  cbv zeta in H.
  split; [reflexivity|]. apply H. reflexivity.
Defined.

Lemma GracefulShutdown_close_after_shutdown_witness :
  s_pc (run false 5 to_shutdown_sched) = PAwait /\
  let s' := run_from false 5 (run false 5 to_shutdown_sched)
              [EReturn (Some "context deadline exceeded"); EGo; EGo] in
  s_pc s' = PDone /\ s_closed s' = true /\
  s_trace s' = s_trace (run false 5 to_shutdown_sched)
               ++ [AReturned (Some "context deadline exceeded")]
               ++ err_part false (Some "context deadline exceeded") ++ [AClose].
Proof.
  pose proof (GracefulShutdown_close_after_shutdown false 5 to_shutdown_sched)
    as (_ & _ & _ & H).
  cbv zeta in H.
  split; [reflexivity|]. apply H. reflexivity.
Defined.

End ServerFacts.

(* ------------------------------------------------------------------ *)
(** ** Further properties of the middleware package *)

(** AddMiddlewares over no middleware is the handler itself, and adding
    two lists in turn is adding their concatenation. *)
Theorem AddMiddlewares_app (h : handler) (ms1 ms2 : list Middleware) :
  AddMiddlewares h [] = h /\
  AddMiddlewares h (ms1 ++ ms2) = AddMiddlewares (AddMiddlewares h ms1) ms2.
Proof. split; [reflexivity|]. unfold AddMiddlewares. by rewrite fold_left_app. Qed.

(** The handler built by [PanicRecovery] never panics, and when the inner
    handler returns normally it is transparent (nothing logged, same
    world). *)
Theorem PanicRecovery_never_panics (h : handler) (w : writer) (r : request) (st : world) :
  fst (PanicRecovery h w r st) = Ok /\
  (forall st', h w r st = (Ok, st') -> PanicRecovery h w r st = (Ok, st')).
Proof.
  unfold PanicRecovery. split.
  - by destruct (h w r st) as [[|v] st'].
  - intros st' ->. reflexivity.
Qed.



(** [Logger] does not change the response of a handler that makes no type
    assertion on its writer: serving it through [Logger] gives the same
    outcome (panics included) and the same status line, content type and
    body on the connection as serving it directly.  A handler that asserts
    [http.Flusher] is served differently: the wrapper has no [Flush]
    method, so the assertion that succeeds on the connection's writer
    panics under [Logger]. *)
Theorem Logger_response_transparent (cs : list cmd) (r : request) (st : world) :
  forallb (fun c => negb (asserts_writer_type c)) cs = true ->
  (fst (Logger (script_handler cs) WConn r st) = fst (script_handler cs WConn r st) /\
   w_conn (snd (Logger (script_handler cs) WConn r st))
     = w_conn (snd (script_handler cs WConn r st))) /\
  (fst (script_handler [CFlush] WConn r st) = Ok /\
   fst (Logger (script_handler [CFlush]) WConn r st) = Panic "interface conversion").
Proof.
  intros Hn. split; [|split; reflexivity].
  unfold Logger, script_handler. cbn [NewResponseWriter].
  set (st1 := set_infos (<[w_next st := mk_info 200 None]> (w_infos st)) (S (w_next st)) st).
  destruct (run_script_same_response cs (WInfo (w_next st) WConn) st1 st eq_refl Hn) as [Ho Hc].
  destruct (run_script_keeps (w_next st) cs (WInfo (w_next st) WConn) st1) as [i' Hi'];
    [subst st1; simpl; rewrite lookup_insert_eq; eauto|].
  destruct (run_script cs (WInfo (w_next st) WConn) st1) as [o st'] eqn:E. simpl in *.
  destruct o as [|v].
  - rewrite Hi'. destruct (responseError i'); simpl; split; [exact Ho| |exact Ho|];
      rewrite <- Hc; by destruct st'.
  - simpl. auto.
Qed.

Lemma Logger_response_transparent_witness :
  forallb (fun c => negb (asserts_writer_type c)) [CWriteHeader 201; CWrite "made"] = true /\
  (fst (Logger (script_handler [CWriteHeader 201; CWrite "made"]) WConn req0 (world0 0))
     = fst (script_handler [CWriteHeader 201; CWrite "made"] WConn req0 (world0 0)) /\
   w_conn (snd (Logger (script_handler [CWriteHeader 201; CWrite "made"]) WConn req0 (world0 0)))
     = w_conn (snd (script_handler [CWriteHeader 201; CWrite "made"] WConn req0 (world0 0)))) /\
  (fst (script_handler [CFlush] WConn req0 (world0 0)) = Ok /\
   fst (Logger (script_handler [CFlush]) WConn req0 (world0 0)) = Panic "interface conversion").
Proof.
  split; [reflexivity|].
  apply (Logger_response_transparent [CWriteHeader 201; CWrite "made"] req0 (world0 0)).
  reflexivity.
Defined.

(** The order of [Logger] and [PanicRecovery] decides whether a panicking
    request is logged.  As in [Test_PanicRecovery]
    ([AddMiddlewares(h, Logger, PanicRecovery)], recovery outermost) only
    the panic is logged: the [Logger] line is lost.  In the order of the
    package example ([AddMiddlewares(h, PanicRecovery, Logger)], [Logger]
    outermost) the panic is logged, then the request with the status
    recorded before the panic; both return normally. *)
Theorem Logger_PanicRecovery_order (h : handler) (r : request) (st : world)
  (v : string) (st' : world) (i : info) :
  h (WInfo (w_next st) WConn) r (snd (NewResponseWriter WConn st)) = (Panic v, st') ->
  w_infos st' !! w_next st = Some i ->
  AddMiddlewares h [Logger; PanicRecovery] WConn r st = (Ok, add_log (LPanic v) st') /\
  exists st'',
    AddMiddlewares h [PanicRecovery; Logger] WConn r st = (Ok, st'') /\
    w_conn st'' = w_conn st' /\
    w_logs st'' = w_logs st' ++
      [LPanic v;
       match responseError i with
       | Some e => LRequest "error" (r_method r) (statusCode i) (Some e)
       | None => LRequest "info" (r_method r) (statusCode i) None
       end].
Proof.
  intros Hh Hi. unfold AddMiddlewares; simpl. split.
  - unfold PanicRecovery, Logger. simpl in Hh |- *. rewrite Hh. reflexivity.
  - unfold Logger at 1. simpl in Hh |- *. unfold PanicRecovery. rewrite Hh.
    simpl. rewrite Hi.
    destruct (responseError i); eexists; (split; [reflexivity|]); simpl;
      (split; [reflexivity|]); by rewrite <- app_assoc.
Qed.

Lemma Logger_PanicRecovery_order_witness :
  let h := script_handler [CWriteHeader 500; CPanic "boom"] in
  let st' := snd (run_script [CWriteHeader 500] (WInfo 0 WConn) (snd (NewResponseWriter WConn (world0 0)))) in
  (h (WInfo (w_next (world0 0)) WConn) req0 (snd (NewResponseWriter WConn (world0 0))) = (Panic "boom", st') /\
   w_infos st' !! w_next (world0 0) = Some (mk_info 500 None)) /\
  (AddMiddlewares h [Logger; PanicRecovery] WConn req0 (world0 0) = (Ok, add_log (LPanic "boom") st') /\
   exists st'',
     AddMiddlewares h [PanicRecovery; Logger] WConn req0 (world0 0) = (Ok, st'') /\
     w_conn st'' = w_conn st' /\
     w_logs st'' = w_logs st' ++
       [LPanic "boom";
        match responseError (mk_info 500 None) with
        | Some e => LRequest "error" (r_method req0) (statusCode (mk_info 500 None)) (Some e)
        | None => LRequest "info" (r_method req0) (statusCode (mk_info 500 None)) None
        end]).
Proof.
  intros h st'.
  assert (H1 : h (WInfo (w_next (world0 0)) WConn) req0 (snd (NewResponseWriter WConn (world0 0)))
               = (Panic "boom", st')) by reflexivity.
  assert (H2 : w_infos st' !! w_next (world0 0) = Some (mk_info 500 None)) by reflexivity.
  split; [split; [exact H1 | exact H2]|].
  exact (Logger_PanicRecovery_order h req0 (world0 0) "boom" st' (mk_info 500 None) H1 H2).
Defined.

(* ------------------------------------------------------------------ *)
(** ** Further properties of RateLimiter and Prometheus *)


Lemma wait_ok (iv : Z) (x : Q) : 0 < iv ->
  ((if Qlt_le_dec x 0 then durationFromTokens iv (- x)%Q else 0) <=? 0) = true
  <-> (-1 < x * inject_Z iv)%Q.
Proof.
  intros Hiv.
  assert (Hq : (0 < inject_Z iv)%Q) by (change 0%Q with (inject_Z 0); rewrite <- Zlt_Qlt; lia).
  destruct (Qlt_le_dec x 0) as [Hx|Hx].
  - unfold durationFromTokens.
    destruct (Qlt_le_dec (inject_Z maxDuration) (- x * inject_Z iv)) as [Hm|Hm].
    + assert (H1 : (1 <= inject_Z maxDuration)%Q)
        by (change 1%Q with (inject_Z 1); rewrite <- Zle_Qle; unfold maxDuration; lia).
      split; intro H.
      * apply Z.leb_le in H; unfold maxDuration in H; lia.
      * exfalso. lra.
    + rewrite Z.leb_le. split; intro H.
      * pose proof (Qlt_floor (- x * inject_Z iv)) as Hf.
        rewrite inject_Z_plus in Hf.
        assert (inject_Z (Qfloor (- x * inject_Z iv)) <= 0)%Q
          by (change 0%Q with (inject_Z 0); rewrite <- Zle_Qle; lia).
        change (inject_Z 1) with 1%Q in Hf. lra.
      * pose proof (Qfloor_le (- x * inject_Z iv)) as Hf.
        assert (Hl : (inject_Z (Qfloor (- x * inject_Z iv)) < inject_Z 1)%Q)
          by (change (inject_Z 1) with 1%Q; lra).
        rewrite <- Zlt_Qlt in Hl. lia.
  - split; intros _; [|reflexivity].
    pose proof (Qmult_le_0_compat x (inject_Z iv) Hx (Qlt_le_weak _ _ Hq)). lra.
Qed.

Lemma advance_le_burst (lim : limiter) (t iv : Z) :
  lim_interval lim = Some iv ->
  fst (advance lim t) = t /\ (snd (advance lim t) <= inject_Z (lim_burst lim))%Q.
Proof.
  intros Hi. unfold advance. rewrite Hi.
  destruct (Qlt_le_dec _ _); simpl; split; auto; lra.
Qed.

Lemma Allow_spec (t iv : Z) (lim : limiter) :
  lim_interval lim = Some iv -> 0 < iv ->
  Allow t lim =
    if Qlt_le_dec (-1) ((snd (advance lim t) - 1) * inject_Z iv)
    then (if 1 <=? lim_burst lim
          then (true, mk_limiter (Some iv) (lim_burst lim) (snd (advance lim t) - 1) t)
          else (false, lim))
    else (false, lim).
Proof.
  intros Hi Hiv. pose proof (advance_le_burst lim t iv Hi) as [Ht _].
  unfold Allow. rewrite Hi. destruct (advance lim t) as [t' c]. simpl in *. subst t'.
  destruct (Qlt_le_dec (-1) ((c - 1) * inject_Z iv)) as [Hc|Hc].
  - rewrite (proj2 (wait_ok iv (c - 1) Hiv) Hc).
    destruct (1 <=? lim_burst lim); reflexivity.
  - destruct (_ <=? 0) eqn:Hw.
    + apply (wait_ok iv (c - 1) Hiv) in Hw. exfalso. lra.
    + destruct (1 <=? lim_burst lim); reflexivity.
Qed.

Lemma Allow_granted_state (t iv : Z) (lim lim' : limiter) :
  lim_interval lim = Some iv -> 0 < iv -> Allow t lim = (true, lim') ->
  lim' = mk_limiter (Some iv) (lim_burst lim) (lim_tokens lim') t /\
  1 <= lim_burst lim /\
  (lim_tokens lim' <= inject_Z (lim_burst lim) - 1)%Q /\
  (-1 < lim_tokens lim' * inject_Z iv)%Q.
Proof.
  intros Hi Hiv HA. pose proof (advance_le_burst lim t iv Hi) as [_ Hle].
  rewrite (Allow_spec t iv lim Hi Hiv) in HA.
  destruct (Qlt_le_dec _ _) as [Hc|Hc]; [|discriminate].
  destruct (1 <=? lim_burst lim) eqn:HB; [|discriminate].
  injection HA as <-. simpl. apply Z.leb_le in HB.
  split; [reflexivity|]. split; [exact HB|]. split; [lra | exact Hc].
Qed.

(** A request admitted by a limiter of rate one token per [iv] ns (as
    [rate.Every(interval)] builds for [RateLimiter]) leaves it with the
    same rate and burst, [last] set to the request's time, and a token
    count in the range (-1/iv, burst - 1]; admission needs a burst of at
    least 1. *)
Theorem Allow_granted_bounds (t iv : Z) (lim lim' : limiter) :
  lim_interval lim = Some iv -> 0 < iv -> Allow t lim = (true, lim') ->
  lim' = mk_limiter (Some iv) (lim_burst lim) (lim_tokens lim') t /\
  1 <= lim_burst lim /\
  (lim_tokens lim' <= inject_Z (lim_burst lim) - 1)%Q /\
  (-1 < lim_tokens lim' * inject_Z iv)%Q.
Proof. apply Allow_granted_state. Qed.









Lemma Allow_granted_bounds_witness :
  lim_interval lim_ex = Some 10 /\ 0 < 10 /\
  Allow 0 lim_ex = (true, snd (Allow 0 lim_ex)) /\
  snd (Allow 0 lim_ex) =
    mk_limiter (Some 10) (lim_burst lim_ex) (lim_tokens (snd (Allow 0 lim_ex))) 0 /\
  1 <= lim_burst lim_ex /\
  (lim_tokens (snd (Allow 0 lim_ex)) <= inject_Z (lim_burst lim_ex) - 1)%Q /\
  (-1 < lim_tokens (snd (Allow 0 lim_ex)) * inject_Z 10)%Q.
Proof.
  assert (H : Allow 0 lim_ex = (true, snd (Allow 0 lim_ex))) by (vm_compute; reflexivity).
  split; [reflexivity|]. split; [lia|]. split; [exact H|].
  apply (Allow_granted_bounds 0 10 lim_ex (snd (Allow 0 lim_ex)) eq_refl); [lia|exact H].
Defined.

Lemma Prometheus_first_collectors (st0 st1 : world) (m : Middleware) :
  w_once st0 = false -> Prometheus st0 = Some (m, st1) -> m = Prometheus_mw prom_full.
Proof.
  intros Ho Hp. unfold Prometheus, register_all in Hp. rewrite Ho in Hp.
  repeat (case_match; try discriminate); simplify_eq. reflexivity.
Qed.


(** The stages of the first [Prometheus()] middleware on a request on the
    connection, unfolded: the wrapper at [w_next st], the in-flight
    increment, the delegator at [w_next st + 1], the handler, then the
    observations. *)
Lemma Prometheus_mw_full (h : handler) (r : request) (st : world) :
  Prometheus_mw prom_full h WConn r st =
  match h (WDeleg (S (w_next st)) (WInfo (w_next st) WConn)) r
          (snd (newDelegator (add_metric ("in_flight_requests", "", 1)
                                (snd (NewResponseWriter WConn st))))) with
  | (Ok, st3) =>
      let st4 := add_metric ("request_duration_seconds", r_method r, 0)
                   (add_metric ("in_flight_requests", "", -1)
                      (add_metric ("response_size_bytes", "", Written (S (w_next st)) st3) st3)) in
      match w_infos st4 !! w_next st with
      | Some i => (Ok, add_metric ("http_requests_total", r_method r, statusCode i) st4)
      | None => (Panic "nil pointer dereference", st4)
      end
  | (Panic v, st3) => (Panic v, add_metric ("in_flight_requests", "", -1) st3)
  end.
Proof.
  unfold Prometheus_mw, prom_full. cbn [responseSize inFlightGauge duration counter
    InstrumentHandlerResponseSize MustCurryWith NewResponseWriter].
  unfold InstrumentHandlerDuration, InstrumentHandlerInFlight, newDelegator. cbn [fst snd w_next].
  destruct (h _ _ _) as [[|v] st3]; reflexivity.
Qed.

(** With the collectors of the first [Prometheus()] call, the handler of a
    request on the connection runs on a promhttp delegator (at
    [w_next st + 1]) wrapping a new [ResponseWriterWithInfo] (at
    [w_next st]), after the in-flight gauge is incremented, and the
    request ends with the handler's outcome on that writer (a panic is not
    recovered).  The in-flight gauge is decremented as often as it is
    incremented, also when the handler panics.  The handler's writer is
    the delegator, not the wrapper, so a handler calling [WriteError]
    panics on its type assertion. *)
Theorem Prometheus_inflight_balanced (st0 st1 : world) (m : Middleware)
  (cs : list cmd) (r : request) (st : world) :
  w_once st0 = false -> Prometheus st0 = Some (m, st1) ->
  (fst (m (script_handler cs) WConn r st)
     = fst (run_script cs (WDeleg (S (w_next st)) (WInfo (w_next st) WConn))
              (snd (newDelegator (add_metric ("in_flight_requests", "", 1)
                                    (snd (NewResponseWriter WConn st)))))) /\
   exists added,
     w_metrics (snd (m (script_handler cs) WConn r st)) = w_metrics st ++ added /\
     gauge_delta added = 0) /\
  fst (m (script_handler [CWriteError "failed"]) WConn r st) = Panic "interface conversion".
Proof.
  intros Ho Hp. rewrite (Prometheus_first_collectors st0 st1 m Ho Hp).
  split; [|rewrite Prometheus_mw_full; reflexivity].
  rewrite Prometheus_mw_full. unfold script_handler.
  set (st2 := snd (newDelegator (add_metric ("in_flight_requests", "", 1)
                                   (snd (NewResponseWriter WConn st))))).
  set (w := WDeleg (S (w_next st)) (WInfo (w_next st) WConn)).
  assert (Hi : is_Some (w_infos st2 !! w_next st))
    by (subst st2; simpl; rewrite lookup_insert_eq; eauto).
  pose proof (run_script_metrics cs w st2) as Hm.
  pose proof (run_script_keeps (w_next st) cs w st2 Hi) as [i' Hi'].
  destruct (run_script cs w st2) as [o st3] eqn:E. simpl in Hm, Hi'.
  destruct o as [|v]; cbv zeta; simpl.
  - rewrite Hi'. split; [reflexivity|]. eexists. split.
    + simpl. rewrite Hm, <- !app_assoc. reflexivity.
    + reflexivity.
  - split; [reflexivity|]. eexists. split.
    + simpl. rewrite Hm, <- !app_assoc. reflexivity.
    + reflexivity.
Qed.


Lemma Prometheus_inflight_balanced_witness :
  w_once (world0 0) = false /\
  Prometheus (world0 0) = Some (Prometheus_mw prom_full,
    set_prom true ["in_flight_requests"; "http_requests_total";
                   "request_duration_seconds"; "response_size_bytes"] (world0 0)) /\
  (fst (Prometheus_mw prom_full (script_handler [CWriteHeader 500; CPanic "boom"]) WConn req0 (world0 0))
     = fst (run_script [CWriteHeader 500; CPanic "boom"]
              (WDeleg (S (w_next (world0 0))) (WInfo (w_next (world0 0)) WConn))
              (snd (newDelegator (add_metric ("in_flight_requests", "", 1)
                                    (snd (NewResponseWriter WConn (world0 0))))))) /\
   exists added,
     w_metrics (snd (Prometheus_mw prom_full (script_handler [CWriteHeader 500; CPanic "boom"])
                       WConn req0 (world0 0))) = w_metrics (world0 0) ++ added /\
     gauge_delta added = 0) /\
  fst (Prometheus_mw prom_full (script_handler [CWriteError "failed"]) WConn req0 (world0 0))
    = Panic "interface conversion".
Proof.
  split; [reflexivity|]. split; [reflexivity|].
  apply (Prometheus_inflight_balanced (world0 0)
           (set_prom true ["in_flight_requests"; "http_requests_total";
                           "request_duration_seconds"; "response_size_bytes"] (world0 0)));
    reflexivity.
Defined.


(* ------------------------------------------------------------------ *)
(** ** Further properties of GracefulShutdown *)

Module ServerProgress.
Import Server.

Lemma run_from_idle (logger : bool) (waitTime : Z) (sched : list event) :
  ESignal ∉ sched ->
  forall s, s_buf s = 0%nat -> s_trace s = [] -> s_closed s = false -> s_received s = 0%nat ->
  (s_pc s = PStart \/ s_pc s = PWait) ->
  let s' := run_from logger waitTime s sched in
  s_buf s' = 0%nat /\ s_trace s' = [] /\ s_closed s' = false /\ s_received s' = 0%nat /\
  (s_pc s' = PStart \/ s_pc s' = PWait).
Proof.
  induction sched as [|e sched IH]; intros Hns s Hb Ht Hc Hr Hp; simpl; [auto|].
  apply not_elem_of_cons in Hns as [He Hns].
  destruct s as [p buf rc cl tr]; simpl in *; subst.
  assert (H1 : let s1 := step logger waitTime e (mk_state p 0 0 false []) in
    s_buf s1 = 0%nat /\ s_trace s1 = [] /\ s_closed s1 = false /\ s_received s1 = 0%nat /\
    (s_pc s1 = PStart \/ s_pc s1 = PWait)).
  { destruct e as [| |err]; [| congruence |]; destruct Hp as [-> | ->]; simpl; repeat split; auto. }
  destruct H1 as (? & ? & ? & ? & ?). apply IH; auto.
Qed.

(** Without a SIGINT or SIGTERM the goroutine of [GracefulShutdown] never
    receives, logs, calls [server.Shutdown] or closes the channel: it stays
    before or at [<-gracefulStop]. *)
Theorem GracefulShutdown_waits_for_signal (logger : bool) (waitTime : Z) (sched : list event) :
  ESignal ∉ sched ->
  let s := run logger waitTime sched in
  s_trace s = [] /\ s_closed s = false /\ s_received s = 0%nat /\
  (s_pc s = PStart \/ s_pc s = PWait).
Proof.
  intros Hns.
  destruct (run_from_idle logger waitTime sched Hns init) as (_ & H); simpl; auto.
Qed.

Lemma GracefulShutdown_waits_for_signal_witness :
  (ESignal ∉ [EGo; EGo; EReturn None]) /\ (
  let s := run true 5 [EGo; EGo; EReturn None] in
  s_trace s = [] /\ s_closed s = false /\ s_received s = 0%nat /\
  (s_pc s = PStart \/ s_pc s = PWait)).
Proof.
  assert (H : ESignal ∉ [EGo; EGo; EReturn None])
    by (rewrite list_elem_of_In; simpl; intuition discriminate).
  split; [exact H|]. exact (GracefulShutdown_waits_for_signal true 5 _ H).
Defined.

(** Once the goroutine waits on [<-gracefulStop], one signal and its
    steps lead to the whole shutdown sequence: one receive, the info line
    (non-nil logger), [server.Shutdown] with the wait time, the error line
    if it failed (non-nil logger), and the channel closed. *)
Theorem GracefulShutdown_signal_from_wait (logger : bool) (waitTime : Z)
  (sched : list event) (err : option string) :
  s_pc (run logger waitTime sched) = PWait ->
  let s' := run_from logger waitTime (run logger waitTime sched)
              [ESignal; EGo; EGo; EGo; EReturn err; EGo; EGo] in
  s_pc s' = PDone /\ s_closed s' = true /\ s_received s' = 1%nat /\
  s_trace s' = canon logger waitTime err.
Proof.
  intros Hw. pose proof (ServerFacts.inv_run logger waitTime sched) as [Hb Hinv].
  rewrite Hw in Hinv. destruct Hinv as (Ht & Hr & Hc).
  generalize dependent (run logger waitTime sched). intros [p buf rc cl tr] Hw Hb Ht Hr Hc.
  cbn [s_pc s_buf s_trace s_received s_closed] in *. subst.
  destruct buf as [|[|buf]]; [| | lia];
    destruct logger, err; simpl; repeat split.
Qed.

Lemma GracefulShutdown_signal_from_wait_witness :
  s_pc (run true 5 [EGo]) = PWait /\
  (let s' := run_from true 5 (run true 5 [EGo])
               [ESignal; EGo; EGo; EGo; EReturn None; EGo; EGo] in
   s_pc s' = PDone /\ s_closed s' = true /\ s_received s' = 1%nat /\
   s_trace s' = canon true 5 None).
Proof.
  assert (H : s_pc (run true 5 [EGo]) = PWait) by reflexivity.
  split; [exact H|]. exact (GracefulShutdown_signal_from_wait true 5 [EGo] None H).
Defined.

End ServerProgress.
